(** * mbserver: the Modbus server core (src/server.go)

    A shallow embedding of [NewServer], [RegisterFunctionHandler], [handle]
    and the body of the [handler] loop, followed by the properties of the
    dispatch tables, of the register store and of the dispatcher.

    Conventions.
    - [uint8] and [uint16] values are [N]; the code does no arithmetic on
      them, a [uint8] is only ever used as a map key or as an array index.
    - A Go [map] is a [gmap]; reading an absent key with the one-result form
      yields the zero value of the element type.
    - The array type [[256]func...] is a list of 256 entries of
      [option Handler], [None] being the [nil] func.  An index of type
      [uint8] is always in range in Go; on such a list an update past the end
      leaves the list as it is and a read past the end gives [nil].
    - [*Server] is mutated in place by the code: here every operation takes
      the server and returns the new one. *)

From Stdlib Require Import NArith Strings.Byte.
From stdpp Require Import gmap list strings pretty.

Local Open Scope N_scope.

(** ** Exceptions *)

(** Modelled from the spec: the declaration of [Exception] and of its
    package-level variables is not in src/server.go.  The code takes the
    address of three of them ([&Success], [&SlaveDeviceFailure],
    [&IllegalFunction]) and compares such addresses with [!=], so what matters
    is which variable an [*Exception] points to.  [OtherException n] stands
    for any further [Exception] variable, package-level or allocated by a
    handler, whatever value it holds. *)
Inductive ExceptionVar :=
  | Success
  | IllegalFunction
  | SlaveDeviceFailure
  | OtherException (n : N).

#[global] Instance ExceptionVar_eq_dec : EqDecision ExceptionVar.
Proof. solve_decision. Defined.

(** A value of type [*Exception]: [None] is the [nil] pointer, [Some v] is
    [&v].  Two pointers are equal when they point to the same variable. *)
Abbreviation ExceptionPtr := (option ExceptionVar).

(** ** Frames *)

(** Modelled from the spec: the [Framer] interface is declared outside
    src/server.go; these are the methods the code calls on it (section 6 of
    the specification lists the same capabilities).  The methods that mutate
    the receiver return the updated frame. *)
Class Framer (F : Type) := {
  Bytes : F → list byte;
  Copy : F → F;
  GetFunction : F → N;
  GetSlaveID : F → N;
  SetData : list byte → F → F;
  SetException : ExceptionPtr → F → F
}.

(** [make(chan *Request)]: an unbuffered channel has capacity 0. *)
Inductive chan := make_chan (capacity : N).

(** [functionCodeTable{}]: 256 [nil] entries. *)
Definition table_size : nat := 256.

(** [make([]T, 65536)] *)
Definition register_count : nat := N.to_nat 65536.

(** The types the server is linked against: [Handler] is the type of the func
    values [func(s *Server, f Framer) ([]byte, *Exception)], [Listener] is
    [net.Listener], [Port] is [serial.Port], [Conn] is [io.ReadWriteCloser]
    and [Frame] is the type of the values of interface type [Framer]. *)
Class Linkage := {
  Handler : Type;
  Listener : Type;
  Port : Type;
  Conn : Type;
  Frame : Type;
  Frame_Framer :: Framer Frame
}.

Section Server.

Context `{!Linkage}.

Abbreviation functionCodeTable := (list (option Handler)).

Record Server := mkServer {
  Debug : bool;
  listeners : list Listener;
  ports : list Port;
  requestChan : option chan;
  function : gmap N functionCodeTable;
  DiscreteInputs : gmap N (list byte);
  Coils : gmap N (list byte);
  HoldingRegisters : gmap N (list N);
  InputRegisters : gmap N (list N)
}.

Record Request := mkRequest {
  conn : Conn;
  frame : Frame
}.

(** The rest of the package: the standard handlers, defined in another
    file, and what calling a func value does.  The callee receives the
    server and the request frame, may mutate the server, and returns
    [(data, exception)].  [call] is the result of a call that returns: a
    handler that panics or does not return is outside this model, and what
    is proved of a dispatch that calls a handler is proved for the calls
    that return. *)
Class Package := {
  ReadCoils : Handler;
  ReadDiscreteInputs : Handler;
  ReadHoldingRegisters : Handler;
  ReadInputRegisters : Handler;
  WriteSingleCoil : Handler;
  WriteHoldingRegister : Handler;
  WriteMultipleCoils : Handler;
  WriteHoldingRegisters : Handler;
  call : Handler → Server → Frame → Server * (list byte * ExceptionPtr)
}.

Context `{!Package}.

Definition zero_table : functionCodeTable := replicate table_size None.

(** [table[code]] *)
Definition entry (table : functionCodeTable) (code : N) : option Handler :=
  mjoin (table !! N.to_nat code).

(** [s.function[slaveID]] in its one-result form. *)
Definition table_of (s : Server) (slaveID : N) : functionCodeTable :=
  default zero_table (function s !! slaveID).

Definition set_function (s : Server) (fn : gmap N functionCodeTable) : Server :=
  {| Debug := Debug s; listeners := listeners s; ports := ports s;
     requestChan := requestChan s; function := fn;
     DiscreteInputs := DiscreteInputs s; Coils := Coils s;
     HoldingRegisters := HoldingRegisters s;
     InputRegisters := InputRegisters s |}.

(** [fmt.Errorf("Unable to register function for undefined slave ID: %d", slaveID)] *)
Definition undefined_slave_error (slaveID : N) : string :=
  "Unable to register function for undefined slave ID: " +:+ pretty slaveID.

(** The result is the new server and the returned [error] ([None] is [nil]).
    [fn] may be the [nil] func. *)
Definition RegisterFunctionHandler (slaveID funcCode : N)
    (fn : option Handler) (s : Server) : Server * option string :=
  match function s !! slaveID with
  | None => (s, Some (undefined_slave_error slaveID))
  | Some table =>
      let table := <[N.to_nat funcCode := fn]> table in
      (set_function s (<[slaveID := table]> (function s)), None)
  end.

(** [&Server{}] *)
Definition empty_server : Server :=
  {| Debug := false; listeners := []; ports := []; requestChan := None;
     function := ∅; DiscreteInputs := ∅; Coils := ∅;
     HoldingRegisters := ∅; InputRegisters := ∅ |}.

(** The five allocations at the head of the loop body of [NewServer]. *)
Definition allocate (ID : N) (s : Server) : Server :=
  {| Debug := Debug s; listeners := listeners s; ports := ports s;
     requestChan := requestChan s;
     function := <[ID := zero_table]> (function s);
     DiscreteInputs := <[ID := replicate register_count x00]> (DiscreteInputs s);
     Coils := <[ID := replicate register_count x00]> (Coils s);
     HoldingRegisters := <[ID := replicate register_count 0]> (HoldingRegisters s);
     InputRegisters := <[ID := replicate register_count 0]> (InputRegisters s) |}.

(** A registration whose returned error is dropped, as the calls in
    [NewServer] do. *)
Definition register_default (ID funcCode : N) (h : Handler) (s : Server) : Server :=
  (RegisterFunctionHandler ID funcCode (Some h) s).1.

(** The eight calls under "Add default functions", in source order. *)
Definition add_default_functions (ID : N) (s : Server) : Server :=
  let s := register_default ID 1 ReadCoils s in
  let s := register_default ID 2 ReadDiscreteInputs s in
  let s := register_default ID 3 ReadHoldingRegisters s in
  let s := register_default ID 4 ReadInputRegisters s in
  let s := register_default ID 5 WriteSingleCoil s in
  let s := register_default ID 6 WriteHoldingRegister s in
  let s := register_default ID 15 WriteMultipleCoils s in
  let s := register_default ID 16 WriteHoldingRegisters s in
  s.

(** One iteration of [for _, ID := range slaveIDs]. *)
Definition configure (s : Server) (ID : N) : Server :=
  add_default_functions ID (allocate ID s).

(** [NewServer]; the goroutine started by [go s.handler()] is [handler]
    below. *)
Definition NewServer (slaveIDs : list N) : Server :=
  let s := foldl configure empty_server slaveIDs in
  {| Debug := Debug s; listeners := listeners s; ports := ports s;
     requestChan := Some (make_chan 0); function := function s;
     DiscreteInputs := DiscreteInputs s; Coils := Coils s;
     HoldingRegisters := HoldingRegisters s;
     InputRegisters := InputRegisters s |}.

(** ** The dispatcher *)

(** What a run of the dispatcher does to the outside, oldest event first:
    the func values it calls (with the server and the frame they are given),
    the two mutating [Framer] methods it calls on the response, and the
    bytes written to a connection. *)
Inductive Event :=
  | Invoked (h : Handler) (s : Server) (request_frame : Frame)
  | DataSet (data : list byte)
  | ExceptionSet (exception : ExceptionPtr)
  | Written (c : Conn) (bytes : list byte).

Record Machine := mkMachine {
  server : Server;
  trace : list Event
}.

(** A Go computation either returns or panics. *)
Inductive Result (A : Type) :=
  | Returned (a : A) (m : Machine)
  | Panicked (m : Machine).
#[global] Arguments Returned {A} a m.
#[global] Arguments Panicked {A} m.

Definition Exec (A : Type) : Type := Machine → Result A.

#[global] Instance Exec_ret : MRet Exec := λ A a m, Returned a m.
#[global] Instance Exec_bind : MBind Exec := λ A B k c m,
  match c m with
  | Returned a m' => k a m'
  | Panicked m' => Panicked m'
  end.

Definition record (e : Event) : Exec () := λ m,
  Returned () {| server := server m; trace := trace m ++ [e] |}.

(** [fn(s, frame)]; calling the [nil] func panics. *)
Definition call_func (fn : option Handler) (request_frame : Frame)
    : Exec (list byte * ExceptionPtr) := λ m,
  match fn with
  | None => Panicked m
  | Some h =>
      let '(s', out) := call h (server m) request_frame in
      Returned out {| server := s';
                      trace := trace m ++ [Invoked h (server m) request_frame] |}
  end.

(** [response.SetData(data)] *)
Definition set_data (data : list byte) (response : Frame) : Exec Frame :=
  record (DataSet data) ≫= λ _, mret (SetData data response).

(** [response.SetException(exception)] *)
Definition set_exception (exception : ExceptionPtr) (response : Frame) : Exec Frame :=
  record (ExceptionSet exception) ≫= λ _, mret (SetException exception response).

(** [request.conn.Write(bytes)]; both results are dropped by the caller. *)
Definition write (c : Conn) (bytes : list byte) : Exec () :=
  record (Written c bytes).

(** Lines 82 to 99 of [handle]: the response under construction and the
    value of [exception] when the [if]/[else] cascade is left.  The test of
    line 93 reads the copy [functions] of the table, the call of line 94
    reads the table again through [s.function]. *)
Definition dispatch (request : Request) : Exec (Frame * ExceptionPtr) :=
  let response := Copy (frame request) in
  let function_code := GetFunction (frame request) in
  let slaveID := GetSlaveID (frame request) in
  λ m,
  match function (server m) !! slaveID with
  | None => Returned (response, Some SlaveDeviceFailure) m
  | Some functions =>
      match entry functions function_code with
      | Some _ =>
          ('(data, exception) ←
             call_func (entry (table_of (server m) slaveID) function_code)
                       (frame request);
           response ← set_data data response;
           mret (response, exception)) m
      | None => Returned (response, Some IllegalFunction) m
      end
  end.

(** [handle]: lines 101 to 105 after [dispatch]. *)
Definition handle (request : Request) : Exec Frame :=
  '(response, exception) ← dispatch request;
  if decide (exception ≠ Some Success)
  then set_exception exception response
  else mret response.

(** One turn of the loop of [handler], for the request received from
    [s.requestChan]. *)
Definition serve (request : Request) : Exec () :=
  response ← handle request;
  write (conn request) (Bytes response).

(** The loop of [handler] run on the requests it receives, in the order in
    which the channel delivers them. *)
Fixpoint handler (received : list Request) : Exec () :=
  match received with
  | [] => mret ()
  | request :: rest => serve request ≫= λ _, handler rest
  end.

End Server.

(** The calls of func values recorded in a trace, oldest first. *)
Definition invocations `{!Linkage} (events : list Event)
    : list (Handler * Server * Frame) :=
  omap (λ e, match e with Invoked h s f => Some (h, s, f) | _ => None end) events.

(** The exceptions passed to [SetException] in a trace, oldest first. *)
Definition exceptions_set `{!Linkage} (events : list Event) : list ExceptionPtr :=
  omap (λ e, match e with ExceptionSet x => Some x | _ => None end) events.

(** A device is configured when it has a dispatch table. *)
Definition configured `{!Linkage} (s : Server) (slaveID : N) : Prop :=
  is_Some (function s !! slaveID).

(** [s.function[slaveID][funcCode]] *)
Definition binding `{!Linkage} (s : Server) (slaveID funcCode : N) : option Handler :=
  entry (table_of s slaveID) funcCode.

(** The type [[256]func...] fixes the number of entries of every table. *)
Definition well_formed `{!Linkage} (s : Server) : Prop :=
  ∀ slaveID table, function s !! slaveID = Some table → length table = table_size.

(** A history of calls of [RegisterFunctionHandler], oldest first, each with
    its returned error dropped. *)
Definition register_all `{!Linkage} (calls : list (N * N * option Handler))
    (s : Server) : Server :=
  foldl (λ s c, (RegisterFunctionHandler c.1.1 c.1.2 c.2 s).1) s calls.

(** The dispatch table of a device when [NewServer] returns: the zero table
    after the eight default registrations. *)
Definition default_table `{!Linkage} `{!Package} : list (option Handler) :=
  <[N.to_nat 16 := Some WriteHoldingRegisters]>
  (<[N.to_nat 15 := Some WriteMultipleCoils]>
  (<[N.to_nat 6 := Some WriteHoldingRegister]>
  (<[N.to_nat 5 := Some WriteSingleCoil]>
  (<[N.to_nat 4 := Some ReadInputRegisters]>
  (<[N.to_nat 3 := Some ReadHoldingRegisters]>
  (<[N.to_nat 2 := Some ReadDiscreteInputs]>
  (<[N.to_nat 1 := Some ReadCoils]> zero_table))))))).

(** Following the spec's words: the standard handler of a function code, if
    it has one. *)
Definition standard_handler `{!Linkage} `{!Package} (funcCode : N) : option Handler :=
  if decide (funcCode = 1) then Some ReadCoils
  else if decide (funcCode = 2) then Some ReadDiscreteInputs
  else if decide (funcCode = 3) then Some ReadHoldingRegisters
  else if decide (funcCode = 4) then Some ReadInputRegisters
  else if decide (funcCode = 5) then Some WriteSingleCoil
  else if decide (funcCode = 6) then Some WriteHoldingRegister
  else if decide (funcCode = 15) then Some WriteMultipleCoils
  else if decide (funcCode = 16) then Some WriteHoldingRegisters
  else None.

(** A frame is addressed to device [slaveID] and function [funcCode]. *)
Definition addressed `{!Linkage} (slaveID funcCode : N) (f : Frame) : Prop :=
  GetSlaveID f = slaveID ∧ GetFunction f = funcCode.

#[global] Instance addressed_dec `{!Linkage} slaveID funcCode f :
  Decision (addressed slaveID funcCode f).
Proof. unfold addressed. apply _. Defined.

(** The func values called on frames addressed to [(slaveID, funcCode)], each
    with the frame it was given, oldest first. *)
Definition invoked_for `{!Linkage} (slaveID funcCode : N) (events : list Event)
    : list (Handler * Frame) :=
  omap (λ c, if decide (addressed slaveID funcCode c.2) then Some (c.1.1, c.2) else None)
       (invocations events).

(** The requests of a list that are addressed to [(slaveID, funcCode)], each
    paired with the handler [h]. *)
Definition expected_for `{!Linkage} (slaveID funcCode : N) (h : Handler)
    (received : list Request) : list (Handler * Frame) :=
  omap (λ r, if decide (addressed slaveID funcCode (frame r))
             then Some (h, frame r) else None)
       received.

(** The connections written to in a trace, oldest first. *)
Definition written_to `{!Linkage} (events : list Event) : list Conn :=
  omap (λ e, match e with Written c _ => Some c | _ => None end) events.

(** A trace without the server snapshots of its [Invoked] events. *)
Inductive Action `{!Linkage} :=
  | Call (h : Handler) (request_frame : Frame)
  | Data (data : list byte)
  | Raise (exception : ExceptionPtr)
  | Write (c : Conn) (bytes : list byte).

Definition outline `{!Linkage} (events : list Event) : list Action :=
  (λ e, match e with
        | Invoked h _ f => Call h f
        | DataSet d => Data d
        | ExceptionSet x => Raise x
        | Written c b => Write c b
        end) <$> events.

(** What a run returned and did, [None] when it panicked. *)
Definition report `{!Linkage} {A : Type} (r : Result A) : option (A * list Action) :=
  match r with
  | Returned a m => Some (a, outline (trace m))
  | Panicked _ => None
  end.

(** The exception [handle] answers with when it calls no handler: lines 90
    to 91 for a device without a dispatch table, lines 96 to 98 otherwise. *)
Definition refusal `{!Linkage} (s : Server) (f : Frame) : ExceptionVar :=
  match function s !! GetSlaveID f with
  | None => SlaveDeviceFailure
  | Some _ => IllegalFunction
  end.

(** What the loop of [handler] does for requests that are all refused on the
    server [s], oldest first: for each request the exception set on the
    response, then the bytes of that response written to the connection of
    the request. *)
Definition refusals `{!Linkage} (s : Server) (received : list Request) : list Event :=
  received ≫= λ request,
    let exception := Some (refusal s (frame request)) in
    [ExceptionSet exception;
     Written (conn request)
             (Bytes (SetException exception (Copy (frame request))))].

(** ** Shutdown *)

(** What [Close] does to the outside, oldest first: the [Close()] calls on
    listeners and on serial ports. *)
Inductive Closing `{!Linkage} :=
  | ListenerClosed (listen : Listener)
  | PortClosed (port : Port).

(** [Close]: the two [for ... range] loops, each appending the call it makes;
    the error returned by each [Close()] call is dropped and no field of the
    server is assigned. *)
Definition Close `{!Linkage} (s : Server) : Server * list Closing :=
  let closed :=
    foldl (λ closed listen, closed ++ [ListenerClosed listen]) [] (listeners s) in
  let closed :=
    foldl (λ closed port, closed ++ [PortClosed port]) closed (ports s) in
  (s, closed).

(** ** A concrete linkage

    A frame that keeps its addressing, its payload and the exception it was
    given, and a few handlers, to run the definitions above on. *)
Module Demo.

Record tcp_frame := mkFrame {
  slave : N;
  code : N;
  payload : list byte;
  failure : ExceptionPtr
}.

#[export] Instance frame_Framer : Framer tcp_frame := {|
  Bytes f := payload f;
  Copy f := {| slave := slave f; code := code f; payload := []; failure := None |};
  GetFunction := code;
  GetSlaveID := slave;
  SetData d f := {| slave := slave f; code := code f; payload := d; failure := failure f |};
  SetException e f := {| slave := slave f; code := N.lor (code f) 128;
                         payload := payload f; failure := e |}
|}.

(** [standard n] answers with no data and [&Success]; [echo] answers with
    the payload of the request; [refuse] answers with an exception other
    than [Success]; [verbose] switches [Debug] on and answers with
    [&Success]; [no_exception] returns the [nil] pointer. *)
Inductive func :=
  | standard (n : N)
  | echo
  | refuse
  | verbose
  | no_exception.

#[export] Instance linkage : Linkage := {|
  Handler := func;
  Listener := ();
  Port := ();
  Conn := N;
  Frame := tcp_frame
|}.

Definition run (h : func) (s : Server) (f : tcp_frame)
    : Server * (list byte * ExceptionPtr) :=
  match h with
  | standard _ => (s, ([], Some Success))
  | echo => (s, (payload f, Some Success))
  | refuse => (s, ([], Some (OtherException 2)))
  | verbose =>
      ({| Debug := true; listeners := listeners s; ports := ports s;
          requestChan := requestChan s; function := function s;
          DiscreteInputs := DiscreteInputs s; Coils := Coils s;
          HoldingRegisters := HoldingRegisters s;
          InputRegisters := InputRegisters s |}, ([], Some Success))
  | no_exception => (s, ([], None))
  end.

#[export] Instance package : Package := {|
  ReadCoils := standard 1;
  ReadDiscreteInputs := standard 2;
  ReadHoldingRegisters := standard 3;
  ReadInputRegisters := standard 4;
  WriteSingleCoil := standard 5;
  WriteHoldingRegister := standard 6;
  WriteMultipleCoils := standard 15;
  WriteHoldingRegisters := standard 16;
  call := run
|}.

(** A server with device 1 only, and requests on connection 7. *)
Definition one_device : Server := NewServer [1].

Definition ask (slaveID funcCode : N) (data : list byte) : Request :=
  {| conn := 7;
     frame := {| slave := slaveID; code := funcCode; payload := data;
                 failure := None |} |}.

Definition start (s : Server) : Machine := {| server := s; trace := [] |}.

(** [one_device] after [RegisterFunctionHandler(1, 99, echo)]. *)
Definition with_echo : Server :=
  (RegisterFunctionHandler 1 99 (Some echo) one_device).1.

(** [one_device] with [refuse] bound to function code 100 and [no_exception]
    to function code 101. *)
Definition with_failures : Server :=
  register_all [(1, 100, Some refuse); (1, 101, Some no_exception)] one_device.

(** [one_device] once a transport has added two listeners and a port. *)
Definition with_endpoints : Server :=
  {| Debug := Debug one_device; listeners := [(); ()]; ports := [()];
     requestChan := requestChan one_device; function := function one_device;
     DiscreteInputs := DiscreteInputs one_device; Coils := Coils one_device;
     HoldingRegisters := HoldingRegisters one_device;
     InputRegisters := InputRegisters one_device |}.


(** [one_device] in service: coil 0 of device 1 written, [Debug] switched
    on, [echo] bound to function code 99, a listener and a port open. *)
Definition in_service : Server :=
  {| Debug := true; listeners := [()]; ports := [()];
     requestChan := requestChan with_echo; function := function with_echo;
     DiscreteInputs := DiscreteInputs with_echo;
     Coils := <[1 := <[0%nat := x01]> (replicate register_count x00)]> (Coils with_echo);
     HoldingRegisters := HoldingRegisters with_echo;
     InputRegisters := InputRegisters with_echo |}.

End Demo.

(** * Properties *)

Section Properties.

Context `{!Linkage} `{!Package}.

Implicit Types (s : Server) (m : Machine) (request : Request).
Implicit Types (table : list (option Handler)) (fn : option Handler).
Implicit Types (slaveID funcCode : N).

(** ** Dispatch tables *)

Lemma entry_zero_table funcCode : entry zero_table funcCode = None.
Proof.
  unfold entry, zero_table.
  destruct (replicate table_size None !! N.to_nat funcCode) as [o|] eqn:E; [|done].
  by apply lookup_replicate in E as [-> _].
Qed.

Lemma entry_insert_eq table funcCode fn :
  (N.to_nat funcCode < length table)%nat →
  entry (<[N.to_nat funcCode := fn]> table) funcCode = fn.
Proof. intros Hlt. unfold entry. by rewrite list_lookup_insert_eq. Qed.

Lemma entry_insert_ne table funcCode funcCode' fn :
  funcCode ≠ funcCode' →
  entry (<[N.to_nat funcCode := fn]> table) funcCode' = entry table funcCode'.
Proof.
  intros Hne. unfold entry. rewrite list_lookup_insert_ne; [done|lia].
Qed.

Lemma table_of_lookup s slaveID table :
  function s !! slaveID = Some table → table_of s slaveID = table.
Proof. unfold table_of. by intros ->. Qed.

(** ** RegisterFunctionHandler *)

Lemma register_undefined s slaveID funcCode fn :
  function s !! slaveID = None →
  RegisterFunctionHandler slaveID funcCode fn s
  = (s, Some (undefined_slave_error slaveID)).
Proof. unfold RegisterFunctionHandler. by intros ->. Qed.

Lemma register_defined s slaveID funcCode fn table :
  function s !! slaveID = Some table →
  RegisterFunctionHandler slaveID funcCode fn s
  = (set_function s (<[slaveID := <[N.to_nat funcCode := fn]> table]> (function s)),
     None).
Proof. unfold RegisterFunctionHandler. by intros ->. Qed.

Lemma register_error_iff s slaveID funcCode fn :
  (RegisterFunctionHandler slaveID funcCode fn s).2 = None ↔ configured s slaveID.
Proof.
  unfold RegisterFunctionHandler, configured.
  destruct (function s !! slaveID); simpl; split; intros Hc; try done;
    by destruct Hc.
Qed.

Lemma register_configured s slaveID funcCode fn slaveID' :
  configured (RegisterFunctionHandler slaveID funcCode fn s).1 slaveID'
  ↔ configured s slaveID'.
Proof.
  unfold RegisterFunctionHandler, configured.
  destruct (function s !! slaveID) as [table|] eqn:E; simpl; [|done].
  destruct (decide (slaveID = slaveID')) as [<-|Hne].
  - rewrite lookup_insert_eq, E. split; intros _; by eexists.
  - by rewrite lookup_insert_ne.
Qed.

Lemma register_well_formed s slaveID funcCode fn :
  well_formed s → well_formed (RegisterFunctionHandler slaveID funcCode fn s).1.
Proof.
  intros Hwf. unfold RegisterFunctionHandler.
  destruct (function s !! slaveID) as [table|] eqn:E; simpl; [|done].
  intros slaveID' table'. simpl.
  destruct (decide (slaveID = slaveID')) as [<-|Hne].
  - rewrite lookup_insert_eq. intros [= <-]. rewrite length_insert. eauto.
  - rewrite lookup_insert_ne by done. apply Hwf.
Qed.

Lemma register_all_configured calls s slaveID :
  configured (register_all calls s) slaveID ↔ configured s slaveID.
Proof.
  revert s. induction calls as [|c calls IH]; intros s; simpl; [done|].
  unfold register_all in *. simpl. rewrite IH. apply register_configured.
Qed.

Lemma register_all_well_formed calls s :
  well_formed s → well_formed (register_all calls s).
Proof.
  revert s. induction calls as [|c calls IH]; intros s Hwf; simpl; [done|].
  unfold register_all in *. simpl. apply IH. by apply register_well_formed.
Qed.

(** ** NewServer *)

Lemma register_default_insert s ID funcCode h base table :
  register_default ID funcCode h (set_function s (<[ID := table]> base))
  = set_function s (<[ID := <[N.to_nat funcCode := Some h]> table]> base).
Proof.
  unfold register_default, RegisterFunctionHandler, set_function.
  cbn [function]. rewrite lookup_insert_eq. cbn [fst function Debug listeners
    ports requestChan DiscreteInputs Coils HoldingRegisters InputRegisters].
  by rewrite insert_insert_eq.
Qed.

Lemma configure_fields s ID :
  configure s ID =
  {| Debug := Debug s; listeners := listeners s; ports := ports s;
     requestChan := requestChan s;
     function := <[ID := default_table]> (function s);
     DiscreteInputs := <[ID := replicate register_count x00]> (DiscreteInputs s);
     Coils := <[ID := replicate register_count x00]> (Coils s);
     HoldingRegisters := <[ID := replicate register_count 0]> (HoldingRegisters s);
     InputRegisters := <[ID := replicate register_count 0]> (InputRegisters s) |}.
Proof.
  unfold configure, add_default_functions. cbv zeta.
  change (allocate ID s)
    with (set_function (allocate ID s) (<[ID := zero_table]> (function s))).
  rewrite !register_default_insert.
  reflexivity.
Qed.

(** After the loop over [slaveIDs], a map holds the fresh value [v] at the
    listed IDs and is as before elsewhere. *)
Local Ltac loop_invariant ids s id :=
  revert s; induction ids as [|ID ids IH]; intros s; cbn [foldl];
  [ rewrite decide_False; [done | apply not_elem_of_nil]
  | rewrite IH, configure_fields;
    cbn [function DiscreteInputs Coils HoldingRegisters InputRegisters];
    destruct (decide (ID = id)) as [->|Hne];
    [ rewrite lookup_insert_eq, (decide_True (P := id ∈ id :: ids));
      [by destruct (decide (id ∈ ids)) | apply list_elem_of_here]
    | rewrite lookup_insert_ne by done;
      destruct (decide (id ∈ ids)) as [Hin|Hout];
      [ rewrite decide_True; [done | by apply list_elem_of_further]
      | rewrite decide_False; [done | by intros [?|?]%elem_of_cons] ] ] ].

Lemma loop_function ids s id :
  function (foldl configure s ids) !! id
  = if decide (id ∈ ids) then Some default_table else function s !! id.
Proof. loop_invariant ids s id. Qed.

Lemma loop_DiscreteInputs ids s id :
  DiscreteInputs (foldl configure s ids) !! id
  = if decide (id ∈ ids) then Some (replicate register_count x00)
    else DiscreteInputs s !! id.
Proof. loop_invariant ids s id. Qed.

Lemma loop_Coils ids s id :
  Coils (foldl configure s ids) !! id
  = if decide (id ∈ ids) then Some (replicate register_count x00)
    else Coils s !! id.
Proof. loop_invariant ids s id. Qed.

Lemma loop_HoldingRegisters ids s id :
  HoldingRegisters (foldl configure s ids) !! id
  = if decide (id ∈ ids) then Some (replicate register_count 0)
    else HoldingRegisters s !! id.
Proof. loop_invariant ids s id. Qed.

Lemma loop_InputRegisters ids s id :
  InputRegisters (foldl configure s ids) !! id
  = if decide (id ∈ ids) then Some (replicate register_count 0)
    else InputRegisters s !! id.
Proof. loop_invariant ids s id. Qed.

Lemma NewServer_function ids id :
  function (NewServer ids) !! id
  = if decide (id ∈ ids) then Some default_table else None.
Proof. unfold NewServer. cbn [function]. by rewrite loop_function. Qed.

Lemma NewServer_configured ids id : configured (NewServer ids) id ↔ id ∈ ids.
Proof.
  unfold configured. rewrite NewServer_function.
  destruct (decide (id ∈ ids)); split; intros Hc; try done;
    by destruct Hc.
Qed.

Lemma length_default_table : length default_table = table_size.
Proof.
  unfold default_table, zero_table. by rewrite !length_insert, length_replicate.
Qed.

Lemma NewServer_well_formed ids : well_formed (NewServer ids).
Proof.
  intros id table. rewrite NewServer_function.
  destruct (decide (id ∈ ids)); [|done].
  intros [= <-]. apply length_default_table.
Qed.

Lemma entry_default_table funcCode :
  entry default_table funcCode = standard_handler funcCode.
Proof.
  unfold default_table, standard_handler.
  repeat match goal with
  | |- entry (<[N.to_nat ?c := ?fn]> ?t) funcCode = _ =>
      destruct (decide (funcCode = c)) as [->|?];
      [ rewrite entry_insert_eq;
        [reflexivity | rewrite ?length_insert; unfold zero_table;
                       rewrite length_replicate; unfold table_size; lia]
      | rewrite entry_insert_ne by done ]
  end.
  apply entry_zero_table.
Qed.

(** ** The dispatcher, case by case *)

Lemma dispatch_unconfigured request m :
  function (server m) !! GetSlaveID (frame request) = None →
  dispatch request m
  = Returned (Copy (frame request), Some SlaveDeviceFailure) m.
Proof. unfold dispatch. by intros ->. Qed.

Lemma dispatch_unbound request m functions :
  function (server m) !! GetSlaveID (frame request) = Some functions →
  entry functions (GetFunction (frame request)) = None →
  dispatch request m
  = Returned (Copy (frame request), Some IllegalFunction) m.
Proof. unfold dispatch. by intros -> ->. Qed.

Lemma dispatch_bound request m functions h s' data exception :
  function (server m) !! GetSlaveID (frame request) = Some functions →
  entry functions (GetFunction (frame request)) = Some h →
  call h (server m) (frame request) = (s', (data, exception)) →
  dispatch request m
  = Returned (SetData data (Copy (frame request)), exception)
      {| server := s';
         trace := trace m ++ [Invoked h (server m) (frame request); DataSet data] |}.
Proof.
  intros Ht Hh Hcall. unfold dispatch. rewrite Ht, Hh.
  rewrite (table_of_lookup _ _ _ Ht), Hh.
  unfold mbind, Exec_bind, call_func. rewrite Hcall.
  unfold set_data, mbind, Exec_bind, record, mret, Exec_ret. cbn [server trace].
  by rewrite <- app_assoc.
Qed.

(** [dispatch] returns, whatever the request and the state. *)
Lemma dispatch_returns request m :
  ∃ response exception m', dispatch request m = Returned (response, exception) m'.
Proof.
  destruct (function (server m) !! GetSlaveID (frame request)) as [functions|] eqn:Ht.
  - destruct (entry functions (GetFunction (frame request))) as [h|] eqn:Hh.
    + destruct (call h (server m) (frame request)) as [s' [data exception]] eqn:Hc.
      erewrite dispatch_bound by done. eauto.
    + erewrite dispatch_unbound by done. eauto.
  - rewrite dispatch_unconfigured by done. eauto.
Qed.

Lemma handle_after_dispatch request m response exception m' :
  dispatch request m = Returned (response, exception) m' →
  handle request m
  = if decide (exception ≠ Some Success)
    then Returned (SetException exception response)
           {| server := server m'; trace := trace m' ++ [ExceptionSet exception] |}
    else Returned response m'.
Proof.
  intros Hd. unfold handle, mbind, Exec_bind. rewrite Hd.
  by destruct (decide (exception ≠ Some Success)).
Qed.

Lemma handle_bound request m functions h s' data exception :
  function (server m) !! GetSlaveID (frame request) = Some functions →
  entry functions (GetFunction (frame request)) = Some h →
  call h (server m) (frame request) = (s', (data, exception)) →
  ∃ response events,
    handle request m
    = Returned response {| server := s'; trace := trace m ++ events |} ∧
    invocations events = [(h, server m, frame request)] ∧
    written_to events = [].
Proof.
  intros Ht Hh Hc.
  rewrite (handle_after_dispatch _ _ _ _ _ (dispatch_bound _ _ _ _ _ _ _ Ht Hh Hc)).
  destruct (decide (exception ≠ Some Success)) as [Hne|Heq].
  - eexists _, [Invoked h (server m) (frame request); DataSet data;
                ExceptionSet exception].
    cbn [server trace]. rewrite <- app_assoc. by split_and!.
  - eexists _, _. by split_and!.
Qed.

(** ** Protocol exceptions *)

(** C1.  A frame whose device ID has no dispatch table is answered with the
    device-failure exception: the response is the copy of the request frame
    with [&SlaveDeviceFailure] set, no handler runs and the server is left
    as it was.  Neither the function code of the frame nor the tables of
    the other devices matter. *)
Theorem unconfigured_device_yields_device_failure request m :
  function (server m) !! GetSlaveID (frame request) = None →
  handle request m
  = Returned (SetException (Some SlaveDeviceFailure) (Copy (frame request)))
      {| server := server m;
         trace := trace m ++ [ExceptionSet (Some SlaveDeviceFailure)] |}.
Proof.
  intros Hd. by rewrite (handle_after_dispatch _ _ _ _ _ (dispatch_unconfigured _ _ Hd)).
Qed.

(** C2.  A frame for a configured device whose function code is not bound
    in the table of that device is answered with the illegal-function
    exception, and no handler is invoked. *)
Theorem unbound_function_yields_illegal_function request m functions :
  function (server m) !! GetSlaveID (frame request) = Some functions →
  entry functions (GetFunction (frame request)) = None →
  ∃ m',
    handle request m
    = Returned (SetException (Some IllegalFunction) (Copy (frame request))) m' ∧
    server m' = server m ∧
    trace m' = trace m ++ [ExceptionSet (Some IllegalFunction)] ∧
    invocations (trace m') = invocations (trace m).
Proof.
  intros Ht Hn. eexists. split; [|split; [|split]].
  - by rewrite (handle_after_dispatch _ _ _ _ _ (dispatch_unbound _ _ _ Ht Hn)).
  - done.
  - done.
  - cbn [trace]. unfold invocations. rewrite omap_app. cbn. by rewrite app_nil_r.
Qed.

(** C3.  A frame for a configured device and a bound function code makes
    the dispatcher call the bound handler, once, with the server and the
    request frame; the server afterwards is the one the handler leaves.
    When the handler returns [&Success], the response is the copy of the
    request frame with the handler's data set. *)
Theorem bound_handler_invoked_once request m functions h s' data exception :
  function (server m) !! GetSlaveID (frame request) = Some functions →
  entry functions (GetFunction (frame request)) = Some h →
  call h (server m) (frame request) = (s', (data, exception)) →
  ∃ response events,
    handle request m
    = Returned response {| server := s'; trace := trace m ++ events |} ∧
    invocations events = [(h, server m, frame request)] ∧
    (exception = Some Success →
     response = SetData data (Copy (frame request)) ∧
     events = [Invoked h (server m) (frame request); DataSet data]).
Proof.
  intros Ht Hh Hc.
  rewrite (handle_after_dispatch _ _ _ _ _ (dispatch_bound _ _ _ _ _ _ _ Ht Hh Hc)).
  destruct (decide (exception ≠ Some Success)) as [Hne|Heq].
  - eexists _, [Invoked h (server m) (frame request); DataSet data;
                ExceptionSet exception].
    cbn [server trace]. rewrite <- app_assoc. by split_and!.
  - eexists _, _. by split_and!.
Qed.

(** C4.  Whatever the frame, the value of [exception] at the end of the
    [if]/[else] cascade decides by comparison with [&Success]: when it is
    [&Success], a handler returned it together with the data the response
    carries, set by [SetData], and [SetException] is not called; otherwise
    the response is given that exception by [SetException], as the last
    action.  So [SetException] is called exactly when the outcome is not
    [&Success], and with the outcome. *)
Theorem outcome_selects_embedding request m :
  ∃ response0 exception m0 response events,
    dispatch request m = Returned (response0, exception) m0 ∧
    handle request m
    = Returned response {| server := server m0; trace := trace m ++ events |} ∧
    (exception = Some Success →
     ∃ h data,
       call h (server m) (frame request) = (server m0, (data, Some Success)) ∧
       response = SetData data (Copy (frame request)) ∧
       events = [Invoked h (server m) (frame request); DataSet data]) ∧
    (exception ≠ Some Success →
     response = SetException exception response0 ∧
     trace m ++ events = trace m0 ++ [ExceptionSet exception]) ∧
    exceptions_set events
    = (if decide (exception = Some Success) then [] else [exception]).
Proof.
  destruct (function (server m) !! GetSlaveID (frame request))
    as [functions|] eqn:Ht.
  - destruct (entry functions (GetFunction (frame request))) as [h|] eqn:Hh.
    + destruct (call h (server m) (frame request)) as [s' [data exception]] eqn:Hc.
      pose proof (dispatch_bound _ _ _ _ _ _ _ Ht Hh Hc) as Hd.
      rewrite (handle_after_dispatch _ _ _ _ _ Hd), Hd.
      destruct (decide (exception ≠ Some Success)) as [Hne|Heq].
      * eexists _, _, _, _, [Invoked h (server m) (frame request); DataSet data;
                             ExceptionSet exception].
        rewrite decide_False by done. cbn [server trace].
        split_and!; [done|by rewrite <- app_assoc|done| |done].
        intros _. cbn [trace]. by rewrite <- app_assoc.
      * apply dec_stable in Heq. subst exception.
        eexists _, _, _, _, [Invoked h (server m) (frame request); DataSet data].
        split_and!; [done|done| |done|done].
        intros _. by exists h, data.
    + pose proof (dispatch_unbound _ _ _ Ht Hh) as Hd.
      rewrite (handle_after_dispatch _ _ _ _ _ Hd), Hd.
      eexists _, _, _, _, [ExceptionSet (Some IllegalFunction)].
      by split_and!.
  - pose proof (dispatch_unconfigured _ _ Ht) as Hd.
    rewrite (handle_after_dispatch _ _ _ _ _ Hd), Hd.
    eexists _, _, _, _, [ExceptionSet (Some SlaveDeviceFailure)].
    by split_and!.
Qed.

(** ** Registration *)

(** A device ID that was not in the list given to [NewServer] has no
    dispatch table, whatever registrations were made since. *)
Lemma unlisted_device_has_no_table slaveIDs calls slaveID :
  slaveID ∉ slaveIDs →
  function (register_all calls (NewServer slaveIDs)) !! slaveID = None.
Proof.
  intros Hout. apply eq_None_not_Some.
  fold (configured (register_all calls (NewServer slaveIDs)) slaveID).
  by rewrite register_all_configured, NewServer_configured.
Qed.

(** C5.  On any server, whatever its registers, its flag and its endpoints
    hold, registering a handler for a device ID that has no dispatch table
    (every ID that was not given to [NewServer] is one, by
    [unlisted_device_has_no_table]) returns the error naming that ID, and
    the server returned is the one before the call, field for field. *)
Theorem register_unconfigured_device_fails s slaveID funcCode fn :
  function s !! slaveID = None →
  RegisterFunctionHandler slaveID funcCode fn s
  = (s, Some (undefined_slave_error slaveID)).
Proof.
  intros Hnone. unfold RegisterFunctionHandler.
  rewrite Hnone. reflexivity.
Qed.

(** C10.  A registration that returns no error changes the binding of its
    own device and function code at most: the other function codes of the
    device, the tables of the other devices, the four register stores and
    the remaining fields are as before. *)
Theorem register_changes_one_binding s slaveID funcCode fn s' :
  RegisterFunctionHandler slaveID funcCode fn s = (s', None) →
  (∀ funcCode', funcCode' ≠ funcCode →
     binding s' slaveID funcCode' = binding s slaveID funcCode') ∧
  (∀ slaveID', slaveID' ≠ slaveID →
     function s' !! slaveID' = function s !! slaveID') ∧
  DiscreteInputs s' = DiscreteInputs s ∧
  Coils s' = Coils s ∧
  HoldingRegisters s' = HoldingRegisters s ∧
  InputRegisters s' = InputRegisters s ∧
  Debug s' = Debug s ∧ listeners s' = listeners s ∧ ports s' = ports s ∧
  requestChan s' = requestChan s.
Proof.
  unfold RegisterFunctionHandler.
  destruct (function s !! slaveID) as [table|] eqn:Ht; [|done].
  intros [= <-]. split_and!; try done.
  - intros funcCode' Hne. unfold binding, table_of, set_function. cbn [function].
    rewrite lookup_insert_eq, Ht. cbn [default].
    by apply entry_insert_ne.
  - intros slaveID' Hne. unfold set_function. cbn [function].
    by rewrite lookup_insert_ne.
Qed.

(** ** Construction *)

(** C7.  After [NewServer], a listed device ID has a discrete-input, a
    coil, a holding-register and an input-register table of 65536 entries
    each and one dispatch table (of 256 entries); an ID that is not listed
    has none of the five. *)
Theorem NewServer_allocates slaveIDs slaveID :
  let s := NewServer slaveIDs in
  if decide (slaveID ∈ slaveIDs) then
    ∃ inputs coils holding input_registers table,
      DiscreteInputs s !! slaveID = Some inputs ∧
      Coils s !! slaveID = Some coils ∧
      HoldingRegisters s !! slaveID = Some holding ∧
      InputRegisters s !! slaveID = Some input_registers ∧
      function s !! slaveID = Some table ∧
      N.of_nat (length inputs) = 65536 ∧
      N.of_nat (length coils) = 65536 ∧
      N.of_nat (length holding) = 65536 ∧
      N.of_nat (length input_registers) = 65536 ∧
      N.of_nat (length table) = 256
  else
    DiscreteInputs s !! slaveID = None ∧
    Coils s !! slaveID = None ∧
    HoldingRegisters s !! slaveID = None ∧
    InputRegisters s !! slaveID = None ∧
    function s !! slaveID = None.
Proof.
  cbv zeta. unfold NewServer.
  cbn [function DiscreteInputs Coils HoldingRegisters InputRegisters].
  rewrite loop_function, loop_DiscreteInputs, loop_Coils,
    loop_HoldingRegisters, loop_InputRegisters.
  destruct (decide (slaveID ∈ slaveIDs)); [|done].
  eexists _, _, _, _, _.
  split_and!; [reflexivity..| | | | |by rewrite length_default_table].
  all: rewrite length_replicate; unfold register_count; apply N2Nat.id.
Qed.

(** C8.  After [NewServer], the dispatch table of a listed device binds
    function codes 1, 2, 3, 4, 5, 6, 15 and 16 to the eight standard
    handlers, in that order, and no other function code: eight entries are
    bound, the rest are [nil]. *)
Theorem NewServer_installs_defaults slaveIDs slaveID :
  slaveID ∈ slaveIDs →
  ∃ table,
    function (NewServer slaveIDs) !! slaveID = Some table ∧
    entry table 1 = Some ReadCoils ∧
    entry table 2 = Some ReadDiscreteInputs ∧
    entry table 3 = Some ReadHoldingRegisters ∧
    entry table 4 = Some ReadInputRegisters ∧
    entry table 5 = Some WriteSingleCoil ∧
    entry table 6 = Some WriteHoldingRegister ∧
    entry table 15 = Some WriteMultipleCoils ∧
    entry table 16 = Some WriteHoldingRegisters ∧
    (∀ funcCode, funcCode ∉ [1; 2; 3; 4; 5; 6; 15; 16] → entry table funcCode = None) ∧
    length (omap id table) = 8%nat.
Proof.
  intros Hin. exists default_table. rewrite NewServer_function, decide_True by done.
  split_and!; try (rewrite entry_default_table; reflexivity); [done| |reflexivity].
  intros funcCode Hout. rewrite entry_default_table. unfold standard_handler.
  repeat match goal with
  | |- context [decide (funcCode = ?c)] =>
      destruct (decide (funcCode = c)) as [->|?]; [exfalso; apply Hout; set_solver|]
  end.
  done.
Qed.

(** ** Dispatching after a registration *)

Lemma binding_lookup s slaveID funcCode table :
  function s !! slaveID = Some table →
  binding s slaveID funcCode = entry table funcCode.
Proof. intros Ht. unfold binding. by rewrite (table_of_lookup _ _ _ Ht). Qed.

Lemma binding_unconfigured s slaveID funcCode :
  function s !! slaveID = None → binding s slaveID funcCode = None.
Proof.
  intros Ht. unfold binding, table_of. rewrite Ht. apply entry_zero_table.
Qed.

(** [handle] returns; it calls the handler bound to the frame's device and
    function, if there is one, and nothing else. *)
Lemma handle_cases request m :
  ∃ response events s',
    handle request m
    = Returned response {| server := s'; trace := trace m ++ events |} ∧
    match binding (server m) (GetSlaveID (frame request))
                  (GetFunction (frame request)) with
    | Some h =>
        invocations events = [(h, server m, frame request)] ∧
        s' = (call h (server m) (frame request)).1
    | None => invocations events = [] ∧ s' = server m
    end ∧
    written_to events = [].
Proof.
  destruct (function (server m) !! GetSlaveID (frame request))
    as [functions|] eqn:Ht.
  - rewrite (binding_lookup _ _ _ _ Ht).
    destruct (entry functions (GetFunction (frame request))) as [h|] eqn:Hh.
    + destruct (call h (server m) (frame request)) as [s' [data exception]] eqn:Hc.
      destruct (handle_bound request m functions h s' data
                  exception Ht Hh Hc) as (response & events & Hr & Hi & Hw).
      by exists response, events, s'.
    + rewrite (handle_after_dispatch _ _ _ _ _ (dispatch_unbound _ _ _ Ht Hh)).
      by eexists _, [ExceptionSet (Some IllegalFunction)], _.
  - rewrite (binding_unconfigured _ _ _ Ht).
    rewrite (handle_after_dispatch _ _ _ _ _ (dispatch_unconfigured _ _ Ht)).
    by eexists _, [ExceptionSet (Some SlaveDeviceFailure)], _.
Qed.

Lemma serve_cases request m :
  ∃ events s',
    serve request m = Returned () {| server := s'; trace := trace m ++ events |} ∧
    match binding (server m) (GetSlaveID (frame request))
                  (GetFunction (frame request)) with
    | Some h =>
        invocations events = [(h, server m, frame request)] ∧
        s' = (call h (server m) (frame request)).1
    | None => invocations events = [] ∧ s' = server m
    end.
Proof.
  destruct (handle_cases request m) as (response & events & s' & Hh & Hb & _).
  exists (events ++ [Written (conn request) (Bytes response)]), s'. split.
  - unfold serve, mbind, Exec_bind. rewrite Hh.
    unfold write, record. cbn [server trace]. by rewrite app_assoc.
  - unfold invocations in *. rewrite omap_app. cbn [omap]. rewrite app_nil_r.
    apply Hb.
Qed.

Lemma invoked_for_app slaveID funcCode events events' :
  invoked_for slaveID funcCode (events ++ events')
  = invoked_for slaveID funcCode events ++ invoked_for slaveID funcCode events'.
Proof. unfold invoked_for, invocations. by rewrite !omap_app. Qed.

(** While no handler touches the binding of [(slaveID, funcCode)], the loop
    of [handler] keeps calling the handler bound there, once for each
    request addressed to it. *)
Lemma handler_keeps_binding slaveID funcCode h received :
  (∀ h' s f, binding (call h' s f).1 slaveID funcCode = binding s slaveID funcCode) →
  ∀ m, binding (server m) slaveID funcCode = Some h →
  ∃ events s',
    handler received m = Returned () {| server := s'; trace := trace m ++ events |} ∧
    binding s' slaveID funcCode = Some h ∧
    invoked_for slaveID funcCode events = expected_for slaveID funcCode h received.
Proof.
  intros Hkeep. induction received as [|request rest IH]; intros m Hb.
  - exists [], (server m). rewrite app_nil_r. by destruct m.
  - destruct (serve_cases request m) as (events & s1 & Hs & Hcase).
    assert (binding s1 slaveID funcCode = Some h ∧
            invoked_for slaveID funcCode events
            = expected_for slaveID funcCode h [request]) as [Hb1 Hi].
    { unfold expected_for, invoked_for.
      destruct (binding (server m) (GetSlaveID (frame request))
                  (GetFunction (frame request))) as [h'|] eqn:Hb';
        destruct Hcase as [-> ->]; cbn [omap list_omap fst snd].
      - split; [by rewrite Hkeep|].
        destruct (decide (addressed slaveID funcCode (frame request)))
          as [[Hd Hf]|?]; [|done].
        rewrite Hd, Hf in Hb'. by simplify_eq.
      - split; [done|].
        destruct (decide (addressed slaveID funcCode (frame request)))
          as [[Hd Hf]|?]; [|done].
        rewrite Hd, Hf in Hb'. by simplify_eq. }
    destruct (IH {| server := s1; trace := trace m ++ events |} Hb1)
      as (events' & s2 & Hr & Hb2 & Hi').
    exists (events ++ events'), s2. split_and!; [|done|].
    + cbn [handler]. unfold mbind, Exec_bind at 1. rewrite Hs, Hr.
      cbn [trace]. by rewrite app_assoc.
    + rewrite invoked_for_app, Hi, Hi'. unfold expected_for.
      by rewrite <- omap_app.
Qed.

(** C6.  Registering [h] for a configured device and a function code
    succeeds and replaces the binding: the next request addressed to the
    device and function code makes the dispatcher call [h], once, and nothing
    else; and as long as no handler changes that binding again, the loop
    calls [h], once, for every later request addressed to it, and no other
    handler for such a request. *)
Theorem last_registration_wins s slaveID funcCode h :
  well_formed s →
  configured s slaveID →
  funcCode < 256 →
  ∃ s',
    RegisterFunctionHandler slaveID funcCode (Some h) s = (s', None) ∧
    binding s' slaveID funcCode = Some h ∧
    (∀ request events0,
       addressed slaveID funcCode (frame request) →
       ∃ response events,
         handle request {| server := s'; trace := events0 |}
         = Returned response
             {| server := (call h s' (frame request)).1;
                trace := events0 ++ events |} ∧
         invocations events = [(h, s', frame request)]) ∧
    ((∀ h' s0 f,
        binding (call h' s0 f).1 slaveID funcCode = binding s0 slaveID funcCode) →
     ∀ received events0,
       ∃ events s'',
         handler received {| server := s'; trace := events0 |}
         = Returned () {| server := s''; trace := events0 ++ events |} ∧
         invoked_for slaveID funcCode events
         = expected_for slaveID funcCode h received).
Proof.
  intros Hwf [table Ht] Hlt.
  rewrite (register_defined _ _ _ _ _ Ht).
  set (s' := set_function s
               (<[slaveID := <[N.to_nat funcCode := Some h]> table]> (function s))).
  exists s'. split; [done|].
  assert (binding s' slaveID funcCode = Some h) as Hb.
  { unfold binding, table_of, s', set_function. cbn [function].
    rewrite lookup_insert_eq. cbn [default]. apply entry_insert_eq.
    rewrite (Hwf _ _ Ht). unfold table_size. lia. }
  split_and!; [done| |].
  - intros request events0 [Hd Hf].
    destruct (handle_cases request {| server := s'; trace := events0 |})
      as (response & events & s1 & Hr & Hcase & _).
    cbn [server trace] in Hr, Hcase. rewrite Hd, Hf, Hb in Hcase.
    destruct Hcase as [Hi ->]. by exists response, events.
  - intros Hkeep received events0.
    destruct (handler_keeps_binding slaveID funcCode h received Hkeep
                {| server := s'; trace := events0 |} Hb)
      as (events & s'' & Hr & _ & Hi).
    by exists events, s''.
Qed.

(** ** The loop of [handler] *)

(** Run on the requests it receives, the loop returns, and it answers on the
    connection of each request, once, in the order of receipt. *)
Lemma handler_answers_in_order received m :
  ∃ events s',
    handler received m = Returned () {| server := s'; trace := trace m ++ events |} ∧
    written_to events = conn <$> received.
Proof.
  revert m. induction received as [|request rest IH]; intros m.
  - exists [], (server m). rewrite app_nil_r. by destruct m.
  - destruct (handle_cases request m) as (response & events & s1 & Hh & _ & Hn).
    destruct (IH {| server := s1;
                    trace := (trace m ++ events)
                             ++ [Written (conn request) (Bytes response)] |})
      as (events' & s2 & Hr & Hw).
    exists (events ++ [Written (conn request) (Bytes response)] ++ events'), s2.
    split.
    + cbn [handler]. unfold mbind, Exec_bind at 1.
      unfold serve, mbind, Exec_bind at 1. rewrite Hh.
      unfold write, record. cbn [server trace]. rewrite Hr.
      cbn [trace]. by rewrite <- !app_assoc.
    + unfold written_to in *. rewrite !omap_app, Hw, Hn. reflexivity.
Qed.

(** * Further properties of the code *)

(** ** Construction, in closed form *)

Lemma register_fields s slaveID funcCode fn :
  let s' := (RegisterFunctionHandler slaveID funcCode fn s).1 in
  Debug s' = Debug s ∧ listeners s' = listeners s ∧ ports s' = ports s ∧
  requestChan s' = requestChan s ∧
  DiscreteInputs s' = DiscreteInputs s ∧ Coils s' = Coils s ∧
  HoldingRegisters s' = HoldingRegisters s ∧ InputRegisters s' = InputRegisters s.
Proof.
  cbv zeta. unfold RegisterFunctionHandler.
  by destruct (function s !! slaveID).
Qed.

Lemma loop_other_fields ids s :
  Debug (foldl configure s ids) = Debug s ∧
  listeners (foldl configure s ids) = listeners s ∧
  ports (foldl configure s ids) = ports s ∧
  requestChan (foldl configure s ids) = requestChan s.
Proof.
  revert s. induction ids as [|ID ids IH]; intros s; cbn [foldl]; [done|].
  destruct (IH (configure s ID)) as (-> & -> & -> & ->).
  by rewrite configure_fields.
Qed.

Lemma lookup_fresh_map {A} (v : A) (ids : list N) (id : N) :
  gset_to_gmap v (list_to_set ids) !! id = if decide (id ∈ ids) then Some v else None.
Proof.
  destruct (decide (id ∈ ids)) as [Hin|Hout].
  - apply lookup_gset_to_gmap_Some. split; [by apply elem_of_list_to_set|done].
  - apply lookup_gset_to_gmap_None. by rewrite elem_of_list_to_set.
Qed.

Lemma NewServer_closed_form ids :
  NewServer ids =
  {| Debug := false; listeners := []; ports := [];
     requestChan := Some (make_chan 0);
     function := gset_to_gmap default_table (list_to_set ids);
     DiscreteInputs := gset_to_gmap (replicate register_count x00) (list_to_set ids);
     Coils := gset_to_gmap (replicate register_count x00) (list_to_set ids);
     HoldingRegisters := gset_to_gmap (replicate register_count 0) (list_to_set ids);
     InputRegisters := gset_to_gmap (replicate register_count 0) (list_to_set ids) |}.
Proof.
  unfold NewServer. cbv zeta.
  destruct (loop_other_fields ids empty_server) as (-> & -> & -> & _).
  cbn [Debug listeners ports empty_server].
  f_equal; apply map_eq; intros id; rewrite lookup_fresh_map.
  - by rewrite loop_function.
  - by rewrite loop_DiscreteInputs.
  - by rewrite loop_Coils.
  - by rewrite loop_HoldingRegisters.
  - by rewrite loop_InputRegisters.
Qed.

(** X1.  After [NewServer], every address of the four tables of a listed
    device reads zero. *)
Theorem NewServer_registers_are_zero slaveIDs slaveID address :
  slaveID ∈ slaveIDs →
  address < 65536 →
  let s := NewServer slaveIDs in
  DiscreteInputs s !! slaveID ≫= (.!! N.to_nat address) = Some x00 ∧
  Coils s !! slaveID ≫= (.!! N.to_nat address) = Some x00 ∧
  HoldingRegisters s !! slaveID ≫= (.!! N.to_nat address) = Some 0 ∧
  InputRegisters s !! slaveID ≫= (.!! N.to_nat address) = Some 0.
Proof.
  intros Hin Hlt. cbv zeta. rewrite NewServer_closed_form.
  cbn [DiscreteInputs Coils HoldingRegisters InputRegisters].
  rewrite !lookup_fresh_map, !decide_True by done. cbn [mbind option_bind].
  assert (N.to_nat address < register_count)%nat as Hn
    by (unfold register_count; lia).
  by rewrite !(lookup_replicate_2 _ _ _ Hn).
Qed.

(** X2.  [NewServer] depends on the set of the IDs it is given only: their
    order and their repetitions make no difference to the server built. *)
Theorem NewServer_depends_on_the_ID_set slaveIDs slaveIDs' :
  (∀ slaveID, slaveID ∈ slaveIDs ↔ slaveID ∈ slaveIDs') →
  NewServer slaveIDs = NewServer slaveIDs'.
Proof.
  intros Hsame. rewrite !NewServer_closed_form.
  assert (list_to_set slaveIDs =@{gset N} list_to_set slaveIDs') as ->; [|done].
  apply set_eq. intros id. by rewrite !elem_of_list_to_set.
Qed.

(** ** Shutdown *)

Lemma foldl_snoc {A B} (f : A → B) (l : list A) (acc : list B) :
  foldl (λ acc x, acc ++ [f x]) acc l = acc ++ (f <$> l).
Proof.
  revert acc. induction l as [|x l IH]; intros acc; cbn [foldl fmap list_fmap].
  - by rewrite app_nil_r.
  - rewrite IH. by rewrite <- app_assoc.
Qed.

(** X3.  [Close] calls [Close()] once on every listener, in the order of
    [s.listeners], then once on every port, in the order of [s.ports]; it
    assigns no field, so a second [Close] makes all these calls again. *)
Theorem Close_closes_every_endpoint s :
  Close s = (s, (ListenerClosed <$> listeners s) ++ (PortClosed <$> ports s)) ∧
  Close (Close s).1 = Close s.
Proof.
  unfold Close. cbv zeta. by rewrite !foldl_snoc.
Qed.

Lemma register_all_fields calls s :
  let s' := register_all calls s in
  Debug s' = Debug s ∧ listeners s' = listeners s ∧ ports s' = ports s ∧
  requestChan s' = requestChan s ∧
  DiscreteInputs s' = DiscreteInputs s ∧ Coils s' = Coils s ∧
  HoldingRegisters s' = HoldingRegisters s ∧ InputRegisters s' = InputRegisters s.
Proof.
  cbv zeta. revert s. induction calls as [|c calls IH]; intros s; [done|].
  unfold register_all in *. cbn [foldl].
  destruct (IH (RegisterFunctionHandler c.1.1 c.1.2 c.2 s).1)
    as (-> & -> & -> & -> & -> & -> & -> & ->).
  apply register_fields.
Qed.

(** X4.  A server built by [NewServer], whatever registrations follow, has
    [Debug] off, no listener, no port and an unbuffered request channel; so
    [Close] on it makes no call. *)
Theorem fresh_server_has_no_endpoint slaveIDs calls :
  let s := register_all calls (NewServer slaveIDs) in
  Debug s = false ∧ listeners s = [] ∧ ports s = [] ∧
  requestChan s = Some (make_chan 0) ∧
  Close s = (s, []).
Proof.
  cbv zeta.
  destruct (register_all_fields calls (NewServer slaveIDs))
    as (Hd & Hl & Hp & Hc & _).
  unfold Close. cbv zeta. rewrite Hd, Hl, Hp, Hc. by rewrite NewServer_closed_form.
Qed.

(** ** Registrations, composed *)

Lemma set_function_id s : set_function s (function s) = s.
Proof. by destruct s. Qed.

Lemma set_function_twice s (tables tables' : gmap N (list (option Handler))) :
  set_function (set_function s tables) tables' = set_function s tables'.
Proof. done. Qed.

Lemma function_set_function s (tables : gmap N (list (option Handler))) :
  function (set_function s tables) = tables.
Proof. done. Qed.

Lemma register_twice s slaveID funcCode fn fn' :
  (RegisterFunctionHandler slaveID funcCode fn'
     (RegisterFunctionHandler slaveID funcCode fn s).1).1
  = (RegisterFunctionHandler slaveID funcCode fn' s).1.
Proof.
  unfold RegisterFunctionHandler at 2 3.
  destruct (function s !! slaveID) as [table|] eqn:Ht; cbn [fst].
  - erewrite register_defined
      by (rewrite function_set_function; apply lookup_insert_eq).
    cbn [fst]. rewrite set_function_twice, function_set_function.
    by rewrite insert_insert_eq, list_insert_insert_eq.
  - by rewrite register_undefined.
Qed.

(** X5.  A second registration for the same device and function code
    overwrites the first: it returns the server and the error that it would
    return without the first, whether or not the device is configured. *)
Theorem register_overwrites s slaveID funcCode fn fn' :
  RegisterFunctionHandler slaveID funcCode fn'
    (RegisterFunctionHandler slaveID funcCode fn s).1
  = RegisterFunctionHandler slaveID funcCode fn' s.
Proof.
  apply injective_projections; [apply register_twice|].
  unfold RegisterFunctionHandler at 2.
  destruct (function s !! slaveID) as [table|] eqn:Ht; cbn [fst]; [|done].
  rewrite (register_defined s _ _ _ _ Ht).
  erewrite register_defined; [done|].
  rewrite function_set_function. apply lookup_insert_eq.
Qed.

(** X6.  Registrations for different devices, or for different function
    codes of one device, commute: either order gives the same server. *)
Theorem register_commutes s slaveID funcCode fn slaveID' funcCode' fn' :
  (slaveID, funcCode) ≠ (slaveID', funcCode') →
  (RegisterFunctionHandler slaveID funcCode fn
     (RegisterFunctionHandler slaveID' funcCode' fn' s).1).1
  = (RegisterFunctionHandler slaveID' funcCode' fn'
       (RegisterFunctionHandler slaveID funcCode fn s).1).1.
Proof.
  intros Hne. destruct (decide (slaveID = slaveID')) as [<-|Hd].
  - assert (funcCode ≠ funcCode') as Hf by congruence.
    destruct (function s !! slaveID) as [table|] eqn:Ht.
    + rewrite (register_defined s _ funcCode' _ _ Ht),
        (register_defined s _ funcCode _ _ Ht). cbn [fst].
      erewrite !register_defined
        by (rewrite function_set_function; apply lookup_insert_eq).
      cbn [fst]. rewrite !set_function_twice, !function_set_function.
      rewrite !insert_insert_eq.
      rewrite list_insert_insert_ne by lia. done.
    + by rewrite !(register_undefined s) by done.
  - destruct (function s !! slaveID) as [table|] eqn:Ht;
      destruct (function s !! slaveID') as [table'|] eqn:Ht'.
    + rewrite (register_defined s _ funcCode' _ _ Ht'),
        (register_defined s _ funcCode _ _ Ht). cbn [fst].
      erewrite !register_defined
        by (rewrite function_set_function, lookup_insert_ne by done;
            eassumption).
      cbn [fst]. rewrite !set_function_twice, !function_set_function.
      by rewrite (insert_insert_ne _ slaveID slaveID') by done.
    + rewrite (register_undefined s _ funcCode' _ Ht'),
        (register_defined s _ funcCode _ _ Ht). cbn [fst].
      rewrite (register_defined s _ funcCode _ _ Ht). cbn [fst].
      rewrite register_undefined; [done|].
      by rewrite function_set_function, lookup_insert_ne.
    + rewrite (register_undefined s _ funcCode _ Ht),
        (register_defined s _ funcCode' _ _ Ht'). cbn [fst].
      rewrite (register_defined s _ funcCode' _ _ Ht'). cbn [fst].
      rewrite register_undefined; [done|].
      by rewrite function_set_function, lookup_insert_ne.
    + by rewrite !(register_undefined s) by done.
Qed.

(** X7.  Registering a handler and then registering again what was bound
    before gives back the server as it was, field for field. *)
Theorem register_then_restore s slaveID funcCode fn :
  (RegisterFunctionHandler slaveID funcCode (binding s slaveID funcCode)
     (RegisterFunctionHandler slaveID funcCode fn s).1).1
  = s.
Proof.
  rewrite register_twice. unfold RegisterFunctionHandler, binding, table_of.
  destruct (function s !! slaveID) as [table|] eqn:Ht; cbn [fst default id];
    [|done].
  assert (<[N.to_nat funcCode := entry table funcCode]> table = table) as ->.
  { unfold entry.
    destruct (table !! N.to_nat funcCode) as [o|] eqn:Ho; cbn [mjoin option_join].
    - by apply list_insert_id.
    - apply list_insert_ge. by apply lookup_ge_None. }
  rewrite insert_id by done. apply set_function_id.
Qed.

Lemma register_dom s slaveID funcCode fn :
  dom (function (RegisterFunctionHandler slaveID funcCode fn s).1) = dom (function s).
Proof.
  unfold RegisterFunctionHandler.
  destruct (function s !! slaveID) as [table|] eqn:Ht; cbn [fst]; [|done].
  rewrite function_set_function. apply dom_insert_lookup_L. by eexists.
Qed.

Lemma register_table_length s slaveID funcCode fn slaveID' :
  length (table_of (RegisterFunctionHandler slaveID funcCode fn s).1 slaveID')
  = length (table_of s slaveID').
Proof.
  unfold RegisterFunctionHandler.
  destruct (function s !! slaveID) as [table|] eqn:Ht; cbn [fst]; [|done].
  unfold table_of. rewrite function_set_function.
  destruct (decide (slaveID = slaveID')) as [<-|Hne].
  - rewrite lookup_insert_eq, Ht. cbn [default]. apply length_insert.
  - by rewrite lookup_insert_ne.
Qed.

(** X8.  No history of registrations, failed ones included, adds or removes
    a device, resizes a dispatch table or touches a register table. *)
Theorem registrations_keep_devices_and_registers calls s :
  let s' := register_all calls s in
  dom (function s') = dom (function s) ∧
  (∀ slaveID, length (table_of s' slaveID) = length (table_of s slaveID)) ∧
  DiscreteInputs s' = DiscreteInputs s ∧
  Coils s' = Coils s ∧
  HoldingRegisters s' = HoldingRegisters s ∧
  InputRegisters s' = InputRegisters s.
Proof.
  cbv zeta.
  destruct (register_all_fields calls s) as (_ & _ & _ & _ & -> & -> & -> & ->).
  split_and!; try done.
  - revert s. induction calls as [|c calls IH]; intros s; [done|].
    unfold register_all in *. cbn [foldl]. rewrite IH. apply register_dom.
  - intros slaveID. revert s. induction calls as [|c calls IH]; intros s; [done|].
    unfold register_all in *. cbn [foldl]. rewrite IH. apply register_table_length.
Qed.

Lemma entry_insert_nil table funcCode :
  entry (<[N.to_nat funcCode := None]> table) funcCode = None.
Proof.
  unfold entry. destruct (decide (N.to_nat funcCode < length table)%nat) as [Hlt|Hge].
  - by rewrite list_lookup_insert_eq.
  - rewrite list_insert_ge by lia.
    assert (table !! N.to_nat funcCode = None) as -> by (apply lookup_ge_None; lia).
    done.
Qed.

(** X9.  Registering the [nil] func for a configured device unbinds the
    function code: a frame addressed to it is then answered with the
    illegal-function exception, without any call and without a panic. *)
Theorem register_nil_then_illegal_function s slaveID funcCode request events0 :
  configured s slaveID →
  addressed slaveID funcCode (frame request) →
  let s' := (RegisterFunctionHandler slaveID funcCode None s).1 in
  handle request {| server := s'; trace := events0 |}
  = Returned (SetException (Some IllegalFunction) (Copy (frame request)))
      {| server := s'; trace := events0 ++ [ExceptionSet (Some IllegalFunction)] |}.
Proof.
  intros [table Ht] [Hd Hf]. cbv zeta.
  rewrite (register_defined _ _ _ _ _ Ht). cbn [fst].
  set (s' := set_function s _).
  assert (dispatch request {| server := s'; trace := events0 |}
          = Returned (Copy (frame request), Some IllegalFunction)
              {| server := s'; trace := events0 |}) as Hdispatch.
  { eapply dispatch_unbound.
    - cbn [server]. unfold s'. rewrite function_set_function, Hd.
      apply lookup_insert_eq.
    - rewrite Hf. apply entry_insert_nil. }
  by rewrite (handle_after_dispatch _ _ _ _ _ Hdispatch).
Qed.

(** ** The dispatcher, further *)

(** X10.  When the bound handler returns an exception other than [&Success]
    (the [nil] pointer included), the data it returned is still given to
    [SetData], and [SetException] is called after it on the same response. *)
Theorem failing_handler_sets_data_then_exception
    request m functions h s' data exception :
  function (server m) !! GetSlaveID (frame request) = Some functions →
  entry functions (GetFunction (frame request)) = Some h →
  call h (server m) (frame request) = (s', (data, exception)) →
  exception ≠ Some Success →
  handle request m
  = Returned (SetException exception (SetData data (Copy (frame request))))
      {| server := s';
         trace := trace m ++ [Invoked h (server m) (frame request);
                              DataSet data; ExceptionSet exception] |}.
Proof.
  intros Ht Hh Hc Hne.
  rewrite (handle_after_dispatch _ _ _ _ _ (dispatch_bound _ _ _ _ _ _ _ Ht Hh Hc)).
  rewrite decide_True by done. cbn [server trace]. by rewrite <- app_assoc.
Qed.

(** X11.  On a server fresh from [NewServer], [handle] sorts every frame
    into one of three cases by its device ID and function code alone: device
    not listed, device failure; device listed and code other than 1 to 6, 15
    and 16, illegal function; otherwise one call of the standard handler of
    that code, on the fresh server and the request frame. *)
Theorem fresh_server_dispatch slaveIDs request events0 :
  let s := NewServer slaveIDs in
  ∃ response events s',
    handle request {| server := s; trace := events0 |}
    = Returned response {| server := s'; trace := events0 ++ events |} ∧
    if decide (GetSlaveID (frame request) ∈ slaveIDs) then
      match standard_handler (GetFunction (frame request)) with
      | Some h =>
          invocations events = [(h, s, frame request)] ∧
          s' = (call h s (frame request)).1
      | None =>
          response = SetException (Some IllegalFunction) (Copy (frame request)) ∧
          events = [ExceptionSet (Some IllegalFunction)] ∧ s' = s
      end
    else
      response = SetException (Some SlaveDeviceFailure) (Copy (frame request)) ∧
      events = [ExceptionSet (Some SlaveDeviceFailure)] ∧ s' = s.
Proof.
  cbv zeta. set (s := NewServer slaveIDs).
  pose proof (NewServer_function slaveIDs (GetSlaveID (frame request))) as Ht.
  fold s in Ht.
  destruct (decide (GetSlaveID (frame request) ∈ slaveIDs)) as [Hin|Hout].
  - rewrite <- entry_default_table.
    destruct (entry default_table (GetFunction (frame request))) as [h|] eqn:Hh.
    + destruct (call h s (frame request)) as [s' [data exception]] eqn:Hc.
      destruct (handle_bound request {| server := s; trace := events0 |}
                  default_table h s' data exception Ht Hh Hc)
        as (response & events & Hr & Hi & _).
      by exists response, events, s'.
    + eexists _, _, _. split; [|done].
      by rewrite (handle_after_dispatch _ _ _ _ _
                    (dispatch_unbound _ {| server := s; trace := events0 |} _ Ht Hh)).
  - eexists _, _, _. split; [|done].
    by rewrite (handle_after_dispatch _ _ _ _ _
                  (dispatch_unconfigured _ {| server := s; trace := events0 |} Ht)).
Qed.

(** ** The loop, further *)

Lemma invocations_app (events events' : list Event) :
  invocations (events ++ events') = invocations events ++ invocations events'.
Proof. unfold invocations. apply omap_app. Qed.

(** X13.  The loop calls handlers on the frames it received only, at most
    once per request and in the order of receipt: the frames handed to
    handlers form a subsequence of the frames of the requests. *)
Theorem handler_calls_follow_requests received m :
  ∃ events s',
    handler received m = Returned () {| server := s'; trace := trace m ++ events |} ∧
    (λ c, c.2) <$> invocations events `sublist_of` frame <$> received.
Proof.
  revert m. induction received as [|request rest IH]; intros m.
  - exists [], (server m). rewrite app_nil_r. by destruct m.
  - destruct (serve_cases request m) as (events & s1 & Hs & Hcase).
    destruct (IH {| server := s1; trace := trace m ++ events |})
      as (events' & s2 & Hr & Hsub).
    exists (events ++ events'), s2. split.
    + cbn [handler]. unfold mbind, Exec_bind at 1. rewrite Hs, Hr.
      cbn [trace]. by rewrite app_assoc.
    + rewrite invocations_app, fmap_app, fmap_cons.
      destruct (binding (server m) (GetSlaveID (frame request))
                  (GetFunction (frame request))) as [h|];
        destruct Hcase as [-> _]; cbn [fmap list_fmap app snd].
      * by apply sublist_skip.
      * by apply sublist_cons.
Qed.

(** X12.  Requests that have no bound handler (unknown device, or unbound
    function code) do not stop the loop: it calls no handler, leaves the
    server as it is, and for every such request, in the order of receipt,
    writes to the connection of the request the bytes of the copied frame
    with the device-failure or the illegal-function exception set. *)
Theorem handler_refuses_unbound_requests received m :
  Forall (λ request,
            binding (server m) (GetSlaveID (frame request))
                    (GetFunction (frame request)) = None) received →
  handler received m
  = Returned () {| server := server m;
                   trace := trace m ++ refusals (server m) received |}.
Proof.
  intros Hall. revert m Hall.
  induction received as [|request rest IH]; intros m Hall.
  - unfold refusals. cbn [handler mbind list_bind]. rewrite app_nil_r.
    by destruct m.
  - apply Forall_cons in Hall as [Hnone Hrest].
    assert (dispatch request m
            = Returned (Copy (frame request),
                        Some (refusal (server m) (frame request))) m) as Hd.
    { unfold refusal.
      destruct (function (server m) !! GetSlaveID (frame request))
        as [functions|] eqn:Ht.
      - apply (dispatch_unbound _ _ functions Ht).
        by rewrite <- (binding_lookup _ _ _ _ Ht).
      - by apply dispatch_unconfigured. }
    assert (Some (refusal (server m) (frame request)) ≠ Some Success) as Hne.
    { unfold refusal.
      by destruct (function (server m) !! GetSlaveID (frame request)). }
    cbn [handler]. unfold mbind at 1, Exec_bind at 1.
    unfold serve, mbind at 1, Exec_bind at 1.
    rewrite (handle_after_dispatch _ _ _ _ _ Hd), decide_True by done.
    unfold write, record. cbn [server trace].
    rewrite (IH {| server := server m; trace := _ |} Hrest).
    cbn [server trace]. unfold refusals. cbn [mbind list_bind].
    by rewrite <- !app_assoc.
Qed.

(** ** The configuration error *)

(** X15.  The error returned for an unconfigured device tells the devices
    apart: different IDs give different messages. *)
Theorem undefined_slave_error_inj slaveID slaveID' :
  undefined_slave_error slaveID = undefined_slave_error slaveID' →
  slaveID = slaveID'.
Proof.
  unfold undefined_slave_error. intros Heq.
  cbn [String.append] in Heq.
  repeat (injection Heq as Heq).
  by apply (inj pretty).
Qed.

End Properties.

(** * The properties on the concrete linkage *)

Import Demo.

(** A request for device 2, which [one_device] does not have. *)
Lemma unconfigured_device_witness :
  function (server (start one_device)) !! GetSlaveID (frame (ask 2 3 [])) = None ∧
  handle (ask 2 3 []) (start one_device)
  = Returned (SetException (Some SlaveDeviceFailure) (Copy (frame (ask 2 3 []))))
      {| server := one_device; trace := [ExceptionSet (Some SlaveDeviceFailure)] |}.
Proof.
  split; [reflexivity|].
  apply (unconfigured_device_yields_device_failure (ask 2 3 []) (start one_device)).
  reflexivity.
Defined.

(** A request for device 1 and function code 99, which no default binds. *)
Lemma unbound_function_witness :
  function (server (start one_device)) !! GetSlaveID (frame (ask 1 99 [])) = Some default_table ∧
  entry default_table (GetFunction (frame (ask 1 99 []))) = None ∧
  ∃ m',
    handle (ask 1 99 []) (start one_device)
    = Returned (SetException (Some IllegalFunction) (Copy (frame (ask 1 99 [])))) m' ∧
    server m' = one_device ∧
    trace m' = [ExceptionSet (Some IllegalFunction)] ∧
    invocations (trace m') = [].
Proof.
  split; [reflexivity|]. split; [reflexivity|].
  apply (unbound_function_yields_illegal_function
           (ask 1 99 []) (start one_device) default_table); reflexivity.
Defined.

(** A request for device 1 and function code 99 once [echo] is bound there. *)
Lemma bound_handler_witness :
  let request := ask 1 99 [x2a] in
  let m := start with_echo in
  let functions := <[N.to_nat 99 := Some echo]> default_table in
  function (server m) !! GetSlaveID (frame request) = Some functions ∧
  entry functions (GetFunction (frame request)) = Some echo ∧
  call echo (server m) (frame request) = (server m, ([x2a], Some Success)) ∧
  ∃ response events,
    handle request m
    = Returned response {| server := server m; trace := trace m ++ events |} ∧
    invocations events = [(echo, server m, frame request)] ∧
    (Some Success = Some Success →
     response = SetData [x2a] (Copy (frame request)) ∧
     events = [Invoked echo (server m) (frame request); DataSet [x2a]]).
Proof.
  intros request m functions.
  split; [reflexivity|]. split; [reflexivity|]. split; [reflexivity|].
  exact (bound_handler_invoked_once request m functions echo (server m) [x2a]
           (Some Success) eq_refl eq_refl eq_refl).
Defined.

(** Device 2 was not given to [NewServer]: the second registration of the
    example in the specification, on a server that has been in service
    (a coil written, [Debug] on, a listener and a port open). *)
Lemma register_unconfigured_witness :
  function in_service !! 2 = None ∧
  RegisterFunctionHandler 2 99 (Some echo) in_service
  = (in_service,
     Some "Unable to register function for undefined slave ID: 2"%string).
Proof.
  assert (function in_service !! 2 = None) as Hnone by reflexivity.
  split; [exact Hnone|].
  exact (register_unconfigured_device_fails in_service 2 99 (Some echo) Hnone).
Defined.

(** The first registration of the same example. *)
Lemma register_one_binding_witness :
  RegisterFunctionHandler 1 99 (Some echo) one_device = (with_echo, None) ∧
  (∀ funcCode', funcCode' ≠ 99 →
     binding with_echo 1 funcCode' = binding one_device 1 funcCode') ∧
  (∀ slaveID', slaveID' ≠ 1 →
     function with_echo !! slaveID' = function one_device !! slaveID') ∧
  DiscreteInputs with_echo = DiscreteInputs one_device ∧
  Coils with_echo = Coils one_device ∧
  HoldingRegisters with_echo = HoldingRegisters one_device ∧
  InputRegisters with_echo = InputRegisters one_device ∧
  Debug with_echo = Debug one_device ∧
  listeners with_echo = listeners one_device ∧
  ports with_echo = ports one_device ∧
  requestChan with_echo = requestChan one_device.
Proof.
  split; [reflexivity|].
  apply (register_changes_one_binding one_device 1 99 (Some echo) with_echo).
  reflexivity.
Defined.

(** The defaults of device 1. *)
Lemma NewServer_defaults_witness :
  (1 ∈ [1]) ∧
  ∃ table,
    function (NewServer [1]) !! 1 = Some table ∧
    entry table 1 = Some (standard 1) ∧
    entry table 2 = Some (standard 2) ∧
    entry table 3 = Some (standard 3) ∧
    entry table 4 = Some (standard 4) ∧
    entry table 5 = Some (standard 5) ∧
    entry table 6 = Some (standard 6) ∧
    entry table 15 = Some (standard 15) ∧
    entry table 16 = Some (standard 16) ∧
    (∀ funcCode, funcCode ∉ [1; 2; 3; 4; 5; 6; 15; 16] → entry table funcCode = None) ∧
    length (omap id table) = 8%nat.
Proof.
  assert (1 ∈ [1]) as Hin by apply list_elem_of_here.
  split; [exact Hin|].
  exact (NewServer_installs_defaults [1] 1 Hin).
Defined.

(** Function code 3 of device 1 rebound from its default to [echo]; none of
    the handlers of [Demo] touches the dispatch tables. *)
Lemma last_registration_witness :
  well_formed one_device ∧
  configured one_device 1 ∧
  3 < 256 ∧
  (∀ h' s0 f, binding (call h' s0 f).1 1 3 = binding s0 1 3) ∧
  ∃ s',
    RegisterFunctionHandler 1 3 (Some echo) one_device = (s', None) ∧
    binding s' 1 3 = Some echo ∧
    (∀ request events0,
       addressed 1 3 (frame request) →
       ∃ response events,
         handle request {| server := s'; trace := events0 |}
         = Returned response
             {| server := (call echo s' (frame request)).1;
                trace := events0 ++ events |} ∧
         invocations events = [(echo, s', frame request)]) ∧
    ((∀ h' s0 f, binding (call h' s0 f).1 1 3 = binding s0 1 3) →
     ∀ received events0,
       ∃ events s'',
         handler received {| server := s'; trace := events0 |}
         = Returned () {| server := s''; trace := events0 ++ events |} ∧
         invoked_for 1 3 events = expected_for 1 3 echo received).
Proof.
  assert (well_formed one_device) as Hwf by apply NewServer_well_formed.
  assert (configured one_device 1) as Hc by (eexists; reflexivity).
  assert (3 < 256) as Hlt by reflexivity.
  assert (∀ h' s0 f, binding (call h' s0 f).1 1 3 = binding s0 1 3) as Hkeep
    by (intros [] s0 f; reflexivity).
  split_and!; [exact Hwf|exact Hc|exact Hlt|exact Hkeep|].
  exact (last_registration_wins one_device 1 3 echo Hwf Hc Hlt).
Defined.

(** ** Runs of the dispatcher *)

(** A handler that returns an exception other than [&Success]: [SetData] is
    called with the returned data first, [SetException] after it. *)
Example handle_refused :
  report (handle (ask 1 100 [x01]) (start with_failures))
  = Some ({| slave := 1; code := 228; payload := [];
             failure := Some (OtherException 2) |},
          [Call refuse (frame (ask 1 100 [x01])); Data [];
           Raise (Some (OtherException 2))]).
Proof. vm_compute. reflexivity. Qed.

(** A handler that returns the [nil] pointer: [nil] is not [&Success], so
    [SetException] is called with it. *)
Example handle_nil_exception :
  report (handle (ask 1 101 []) (start with_failures))
  = Some ({| slave := 1; code := 229; payload := []; failure := None |},
          [Call no_exception (frame (ask 1 101 [])); Data []; Raise None]).
Proof. vm_compute. reflexivity. Qed.

(** A handler that returns [&Success] with data. *)
Example handle_echo :
  report (handle (ask 1 99 [x2a]) (start with_echo))
  = Some ({| slave := 1; code := 99; payload := [x2a]; failure := None |},
          [Call echo (frame (ask 1 99 [x2a])); Data [x2a]]).
Proof. vm_compute. reflexivity. Qed.

(** Two requests on the loop: a default handler, then an unknown device. *)
Example handler_two_requests :
  report (handler [ask 1 3 []; ask 9 3 []] (start one_device))
  = Some ((),
          [Call (standard 3) (frame (ask 1 3 [])); Data []; Write 7 [];
           Raise (Some SlaveDeviceFailure); Write 7 []]).
Proof. vm_compute. reflexivity. Qed.

(** Unbinding: registering the [nil] func makes the code unbound again. *)
Example register_nil_unbinds :
  binding (RegisterFunctionHandler 1 3 None one_device).1 1 3 = None.
Proof. vm_compute. reflexivity. Qed.

(** ** The further properties on the concrete linkage *)

(** The last address of device 1. *)
Lemma registers_are_zero_witness :
  (1 ∈ [1]) ∧
  65535 < 65536 ∧
  let s := NewServer [1] in
  DiscreteInputs s !! 1 ≫= (.!! N.to_nat 65535) = Some x00 ∧
  Coils s !! 1 ≫= (.!! N.to_nat 65535) = Some x00 ∧
  HoldingRegisters s !! 1 ≫= (.!! N.to_nat 65535) = Some 0 ∧
  InputRegisters s !! 1 ≫= (.!! N.to_nat 65535) = Some 0.
Proof.
  assert (1 ∈ [1]) as Hin by apply list_elem_of_here.
  assert (65535 < 65536) as Hlt by reflexivity.
  exact (conj Hin (conj Hlt (NewServer_registers_are_zero [1] 1 65535 Hin Hlt))).
Defined.

(** Device 1 given twice and before device 2, against device 2 then 1. *)
Lemma ID_set_witness :
  (∀ slaveID, slaveID ∈ [1; 1; 2] ↔ slaveID ∈ [2; 1]) ∧
  NewServer [1; 1; 2] = NewServer [2; 1].
Proof.
  assert (∀ slaveID, slaveID ∈ [1; 1; 2] ↔ slaveID ∈ [2; 1]) as Hsame.
  { intros slaveID. rewrite !elem_of_cons, !elem_of_nil. tauto. }
  exact (conj Hsame (NewServer_depends_on_the_ID_set [1; 1; 2] [2; 1] Hsame)).
Defined.

(** Two function codes of device 1. *)
Lemma commuting_registrations_witness :
  ((1, 3) ≠ (1, 4)) ∧
  (RegisterFunctionHandler 1 3 (Some echo)
     (RegisterFunctionHandler 1 4 (Some refuse) one_device).1).1
  = (RegisterFunctionHandler 1 4 (Some refuse)
       (RegisterFunctionHandler 1 3 (Some echo) one_device).1).1.
Proof.
  assert ((1, 3) ≠ (1, 4)) as Hne by discriminate.
  exact (conj Hne (register_commutes one_device 1 3 (Some echo) 1 4 (Some refuse) Hne)).
Defined.

(** The default of function code 3 of device 1 taken away. *)
Lemma register_nil_witness :
  configured one_device 1 ∧
  addressed 1 3 (frame (ask 1 3 [])) ∧
  let s' := (RegisterFunctionHandler 1 3 None one_device).1 in
  handle (ask 1 3 []) {| server := s'; trace := [] |}
  = Returned (SetException (Some IllegalFunction) (Copy (frame (ask 1 3 []))))
      {| server := s'; trace := [] ++ [ExceptionSet (Some IllegalFunction)] |}.
Proof.
  assert (configured one_device 1) as Hc by (eexists; reflexivity).
  assert (addressed 1 3 (frame (ask 1 3 []))) as Ha by (split; reflexivity).
  exact (conj Hc (conj Ha
           (register_nil_then_illegal_function one_device 1 3 (ask 1 3 []) [] Hc Ha))).
Defined.

(** [refuse], bound to function code 100. *)
Lemma failing_handler_witness :
  let request := ask 1 100 [x01] in
  let m := start with_failures in
  let functions :=
    <[N.to_nat 101 := Some no_exception]>
      (<[N.to_nat 100 := Some refuse]> default_table) in
  function (server m) !! GetSlaveID (frame request) = Some functions ∧
  entry functions (GetFunction (frame request)) = Some refuse ∧
  call refuse (server m) (frame request)
  = (server m, ([], Some (OtherException 2))) ∧
  Some (OtherException 2) ≠ Some Success ∧
  handle request m
  = Returned (SetException (Some (OtherException 2))
                (SetData [] (Copy (frame request))))
      {| server := server m;
         trace := trace m ++ [Invoked refuse (server m) (frame request);
                              DataSet []; ExceptionSet (Some (OtherException 2))] |}.
Proof.
  intros request m functions.
  assert (Some (OtherException 2) ≠ Some Success) as Hne by discriminate.
  split; [reflexivity|]. split; [reflexivity|]. split; [reflexivity|].
  split; [exact Hne|].
  exact (failing_handler_sets_data_then_exception request m functions refuse
           (server m) [] (Some (OtherException 2)) eq_refl eq_refl eq_refl Hne).
Defined.

(** Equal messages, for device 2. *)
Lemma undefined_slave_error_witness :
  undefined_slave_error 2 = undefined_slave_error 2 ∧ 2 = 2.
Proof.
  split; [reflexivity|].
  exact (undefined_slave_error_inj 2 2 eq_refl).
Defined.

(** ** Further runs *)

(** [Close] with two listeners and a port. *)
Example Close_with_endpoints :
  (Close with_endpoints).2
  = [ListenerClosed (); ListenerClosed (); PortClosed ()].
Proof. vm_compute. reflexivity. Qed.

(** The messages for devices 2 and 12 differ. *)
Example undefined_slave_error_12 :
  undefined_slave_error 12
  = "Unable to register function for undefined slave ID: 12"%string.
Proof. reflexivity. Qed.

(** Three requests in two batches: the later one is served on the state the
    earlier ones leave ([verbose], bound to code 7, switches [Debug] on). *)
Example handler_two_batches :
  let s := (RegisterFunctionHandler 1 7 (Some verbose) one_device).1 in
  option_map (λ r, (Debug (server r.2), written_to (trace r.2)))
    (match handler ([ask 1 7 []; ask 2 7 []] ++ [ask 1 3 []]) (start s) with
     | Returned a m => Some (a, m)
     | Panicked _ => None
     end)
  = Some (true, [7; 7; 7]).
Proof. vm_compute. reflexivity. Qed.

(** A request for an unknown device, then one for an unbound function code
    of device 1. *)
Lemma handler_refuses_witness :
  let received := [ask 2 3 [x01]; ask 1 99 []] in
  let m := start one_device in
  Forall (λ request,
            binding (server m) (GetSlaveID (frame request))
                    (GetFunction (frame request)) = None) received ∧
  handler received m
  = Returned () {| server := server m;
                   trace := trace m ++ refusals (server m) received |}.
Proof.
  intros received m.
  assert (Forall (λ request,
                    binding (server m) (GetSlaveID (frame request))
                            (GetFunction (frame request)) = None) received)
    as Hall by (repeat constructor).
  exact (conj Hall (handler_refuses_unbound_requests received m Hall)).
Defined.
